(** * useBlockSync: the two-way bridge between a controlled block value and
      the block-editor store

    Shallow embedding of
    [packages/block-editor/src/components/provider/use-block-sync.js].

    The hook owns one mutable object ([pendingChanges], a React ref shared by
    its two effects), the closure variables of the store subscription
    ([blocks], [isPersistent], [previousAreBlocksDifferent]) and talks to two
    collaborators: the block-editor store (selectors read, actions
    dispatched) and the controlling entity ([onChange] / [onInput]).

    - JavaScript values are a small universe with reference identity for
      objects and arrays: only the address of a block tree matters to the
      hook, never its contents.
    - The shared ref is threaded explicitly; every dispatched action and
      every callback invocation is appended to a trace of [event]s.
    - The store is a collaborator, not part of the hook: a [Store] is what
      its selectors answer at one instant, and the notifications it sends
      (also those a dispatched action causes) are inputs of their own. *)

From Stdlib Require Import List String Bool Arith Lia.
Import ListNotations.

Set Implicit Arguments.

(** ** JavaScript values *)

Module JS.

(** [Obj a] is any object or array, identified by its address [a]; two
    arrays with the same elements at different addresses are different
    values. *)
Inductive value : Type :=
| Undefined
| Null
| Obj (addr : nat)
| Str (s : string).

(** ToBoolean: [undefined], [null] and the empty string are falsy, every
    object (also the empty array) is truthy. *)
Definition truthy (v : value) : bool :=
  match v with
  | Undefined | Null => false
  | Obj _ => true
  | Str s => negb (String.eqb s "")
  end.

(** [a === b].  On this universe SameValueZero, which [Array.prototype.includes]
    and React's dependency comparison ([Object.is]) use, is the same
    relation. *)
Definition strict_eq (a b : value) : bool :=
  match a, b with
  | Undefined, Undefined => true
  | Null, Null => true
  | Obj x, Obj y => Nat.eqb x y
  | Str s, Str t => String.eqb s t
  | _, _ => false
  end.

(** [array.includes( v )]. *)
Definition includes (l : list value) (v : value) : bool :=
  existsb (fun x => strict_eq x v) l.

(** lodash [last( array )]: the final element, [undefined] when empty. *)
Definition last (l : list value) : value := List.last l Undefined.

(** Default parameter [x = null]: only [undefined] takes the default. *)
Definition default_null (v : value) : value :=
  match v with
  | Undefined => Null
  | _ => v
  end.

End JS.

Import JS.

(** ** The collaborators *)

(** What the selectors of ['core/block-editor'] answer at one instant.
    [getBlocks] always answers a block list (an array), given here by its
    address. *)
Record Store : Type := mkStore {
  getBlocks : value -> nat;
  getSelectionStart : value;
  getSelectionEnd : value;
  isLastBlockChangePersistent : bool;
  isLastBlockChangeIgnored : bool
}.

(** Everything the hook does to the outside: the five actions it dispatches
    and the two callbacks of the controlling entity.  A callback event
    carries the identity of the function that was called. *)
Inductive event : Type :=
| ResetBlocks (blocks : value)
| ResetSelection (selStart selEnd : value)
| ReplaceInnerBlocks (clientId blocks : value)
| SetHasControlledInnerBlocks (clientId : value) (hasControl : bool)
| MarkNextChangeAsNotPersistent
| OnChange (f : nat) (blocks selStart selEnd : value)
| OnInput (f : nat) (blocks selStart selEnd : value).

(** The arguments of one call of the hook.  Callbacks are function
    identities; an omitted callback is lodash's [noop]. *)
Record Props : Type := mkProps {
  clientId : value;
  controlledBlocks : value;
  isDisabled : bool;
  onChange : nat;
  onInput : nat;
  controlledSelectionStart : value;
  controlledSelectionEnd : value
}.

(** [useRef( { incoming: null, outgoing: [] } )]. *)
Record PendingChanges : Type := mkPending {
  incoming : value;
  outgoing : list value
}.

Definition initialPendingChanges : PendingChanges :=
  {| incoming := Null; outgoing := [] |}.

(** The closure of one store subscription: the props captured when the
    effect ran and its three [let] variables. *)
Record Subscription : Type := mkSub {
  sub_clientId : value;
  sub_onChange : nat;
  sub_onInput : nat;
  blocks : value;
  isPersistent : bool;
  previousAreBlocksDifferent : bool
}.

(** ** setControlledBlocks *)

Definition setControlledBlocks (p : Props) : list event :=
  if negb (truthy (controlledBlocks p)) then []
  else if truthy (clientId p) then
    [ SetHasControlledInnerBlocks (clientId p) true;
      MarkNextChangeAsNotPersistent;
      ReplaceInnerBlocks (clientId p) (controlledBlocks p) ]
  else
    [ ResetBlocks (controlledBlocks p) ].

(** ** The outbound effect: subscribing to the store *)

(** Body of the first [useEffect]: nothing when disabled, otherwise a fresh
    subscription whose [blocks] is still [undefined]. *)
Definition subscribeEffect (p : Props) (st : Store) : option Subscription :=
  if isDisabled p then None
  else Some {| sub_clientId := clientId p;
               sub_onChange := onChange p;
               sub_onInput := onInput p;
               blocks := Undefined;
               isPersistent := isLastBlockChangePersistent st;
               previousAreBlocksDifferent := false |}.

Definition newBlocks (st : Store) (s : Subscription) : value :=
  Obj (getBlocks st (sub_clientId s)).

Definition areBlocksDifferent (st : Store) (s : Subscription) : bool :=
  negb (strict_eq (newBlocks st s) (blocks s)).

Definition didPersistenceChange (st : Store) (s : Subscription) : bool :=
  previousAreBlocksDifferent s
  && negb (areBlocksDifferent st s)
  && isLastBlockChangePersistent st
  && negb (isPersistent s).

(** The callback handed to [registry.subscribe], run on one store
    notification. *)
Definition subscriber (st : Store) (pc : PendingChanges) (s : Subscription)
  : PendingChanges * Subscription * list event :=
  let newIsPersistent := isLastBlockChangePersistent st in
  if areBlocksDifferent st s
     && (truthy (incoming pc) || isLastBlockChangeIgnored st)
  then
    (* early return: [previousAreBlocksDifferent] keeps its value *)
    ({| incoming := Null; outgoing := outgoing pc |},
     {| sub_clientId := sub_clientId s;
        sub_onChange := sub_onChange s;
        sub_onInput := sub_onInput s;
        blocks := newBlocks st s;
        isPersistent := newIsPersistent;
        previousAreBlocksDifferent := previousAreBlocksDifferent s |},
     [])
  else if areBlocksDifferent st s || didPersistenceChange st s then
    ({| incoming := incoming pc;
        outgoing := outgoing pc ++ [newBlocks st s] |},
     {| sub_clientId := sub_clientId s;
        sub_onChange := sub_onChange s;
        sub_onInput := sub_onInput s;
        blocks := newBlocks st s;
        isPersistent := newIsPersistent;
        previousAreBlocksDifferent := areBlocksDifferent st s |},
     [ if newIsPersistent
       then OnChange (sub_onChange s) (newBlocks st s)
                     (getSelectionStart st) (getSelectionEnd st)
       else OnInput (sub_onInput s) (newBlocks st s)
                    (getSelectionStart st) (getSelectionEnd st) ])
  else
    (pc,
     {| sub_clientId := sub_clientId s;
        sub_onChange := sub_onChange s;
        sub_onInput := sub_onInput s;
        blocks := blocks s;
        isPersistent := isPersistent s;
        previousAreBlocksDifferent := areBlocksDifferent st s |},
     []).

(** ** The inbound effect: reconciling the controlled value *)

Definition resetSelectionIfControlled (p : Props) : list event :=
  if truthy (controlledSelectionStart p) && truthy (controlledSelectionEnd p)
  then [ ResetSelection (controlledSelectionStart p)
                        (controlledSelectionEnd p) ]
  else [].

(** Body of the second [useEffect]. *)
Definition resetEffect (p : Props) (pc : PendingChanges)
  : PendingChanges * list event :=
  if includes (outgoing pc) (controlledBlocks p) then
    if strict_eq (last (outgoing pc)) (controlledBlocks p)
    then ({| incoming := incoming pc; outgoing := [] |}, [])
    else (pc, [])
  else
    ({| incoming := controlledBlocks p; outgoing := [] |},
     setControlledBlocks p ++ resetSelectionIfControlled p).

(** ** The hook under React's effect discipline *)

(** The destructuring default [clientId = null]. *)
Definition withDefaults (p : Props) : Props :=
  {| clientId := default_null (clientId p);
     controlledBlocks := controlledBlocks p;
     isDisabled := isDisabled p;
     onChange := onChange p;
     onInput := onInput p;
     controlledSelectionStart := controlledSelectionStart p;
     controlledSelectionEnd := controlledSelectionEnd p |}.

(** One mounted instance of the hook: the props of its last render, the
    shared ref and the live subscription, if any. *)
Record Bridge : Type := mkBridge {
  rendered : Props;
  pendingChanges : PendingChanges;
  subscription : option Subscription
}.

(** Dependency arrays.  The registry is the same throughout; note that
    [isDisabled] is in neither array. *)
Definition subscribeDepsChanged (p q : Props) : bool :=
  negb (Nat.eqb (onChange p) (onChange q))
  || negb (Nat.eqb (onInput p) (onInput q))
  || negb (strict_eq (clientId p) (clientId q)).

Definition resetDepsChanged (p q : Props) : bool :=
  negb (strict_eq (controlledBlocks p) (controlledBlocks q))
  || negb (strict_eq (clientId p) (clientId q)).

(** First render: both effects run, in the order they are declared. *)
Definition mount (p0 : Props) (st : Store) : Bridge * list event :=
  let p := withDefaults p0 in
  let '(pc, tr) := resetEffect p initialPendingChanges in
  ({| rendered := p;
      pendingChanges := pc;
      subscription := subscribeEffect p st |}, tr).

(** A later render: an effect runs again only when one of its dependencies
    changed; re-running the first one drops the old subscription. *)
Definition rerender (b : Bridge) (p0 : Props) (st : Store)
  : Bridge * list event :=
  let p := withDefaults p0 in
  let sub := if subscribeDepsChanged (rendered b) p
             then subscribeEffect p st
             else subscription b in
  let '(pc, tr) := if resetDepsChanged (rendered b) p
                   then resetEffect p (pendingChanges b)
                   else (pendingChanges b, []) in
  ({| rendered := p; pendingChanges := pc; subscription := sub |}, tr).

(** The store notifies its subscribers. *)
Definition notify (b : Bridge) (st : Store) : Bridge * list event :=
  match subscription b with
  | None => (b, [])
  | Some s =>
      let '(pc, s', tr) := subscriber st (pendingChanges b) s in
      ({| rendered := rendered b;
          pendingChanges := pc;
          subscription := Some s' |}, tr)
  end.

Inductive input : Type :=
| Notify (st : Store)
| Render (p : Props) (st : Store).

Definition step (b : Bridge) (i : input) : Bridge * list event :=
  match i with
  | Notify st => notify b st
  | Render p st => rerender b p st
  end.

Fixpoint run (b : Bridge) (inputs : list input) : Bridge * list event :=
  match inputs with
  | [] => (b, [])
  | i :: rest =>
      let '(b1, tr1) := step b i in
      let '(b2, tr2) := run b1 rest in
      (b2, tr1 ++ tr2)
  end.

(** ** Reading a trace *)

(** Writes to the block tree of the store: [resetBlocks],
    [replaceInnerBlocks] and the two actions that prepare the latter. *)
Definition isBlockWrite (e : event) : bool :=
  match e with
  | ResetBlocks _ | ReplaceInnerBlocks _ _
  | SetHasControlledInnerBlocks _ _ | MarkNextChangeAsNotPersistent => true
  | _ => false
  end.

Definition isCallback (e : event) : bool :=
  match e with
  | OnChange _ _ _ _ | OnInput _ _ _ _ => true
  | _ => false
  end.

Definition blockWrites (tr : list event) : list event := filter isBlockWrite tr.
Definition callbacks (tr : list event) : list event := filter isCallback tr.

Definition inputKeepsDisabled (i : input) : bool :=
  match i with
  | Notify _ => true
  | Render p _ => isDisabled p
  end.

(** The block lists handed to the controlling entity, in call order. *)
Definition forwardedBlocks (tr : list event) : list value :=
  flat_map (fun e => match e with
                     | OnChange _ b _ _ | OnInput _ b _ _ => [b]
                     | _ => []
                     end) tr.

Definition isNotify (i : input) : bool :=
  match i with
  | Notify _ => true
  | Render _ _ => false
  end.

(** Block lists are arrays. *)
Definition isBlockList (v : value) : bool :=
  match v with
  | Obj _ => true
  | _ => false
  end.

(** ** Claims of the specification, as stated *)

(** The statements below are the specification's sentences read literally;
    three of them fail on the code and are refuted further down. *)

(** "An externalValue not present in outgoing clears outgoing, sets incoming
    and triggers exactly one store reset with that value": for every value,
    the absent ones included. *)
Definition genuine_reset_as_stated (p : Props) (pc : PendingChanges) : Prop :=
  includes (outgoing pc) (controlledBlocks p) = false ->
  outgoing (fst (resetEffect p pc)) = []
  /\ incoming (fst (resetEffect p pc)) = controlledBlocks p
  /\ (clientId p = Null ->
      blockWrites (snd (resetEffect p pc))
      = [ ResetBlocks (controlledBlocks p) ])
  /\ (truthy (clientId p) = true ->
      blockWrites (snd (resetEffect p pc))
      = [ SetHasControlledInnerBlocks (clientId p) true;
          MarkNextChangeAsNotPersistent;
          ReplaceInnerBlocks (clientId p) (controlledBlocks p) ]).

(** "outgoing is cleared to empty whenever the external value (a) matches a
    queued outgoing entry by reference or (b) is a genuinely new one". *)
Definition outgoing_cleared_as_stated (p : Props) (pc : PendingChanges) : Prop :=
  includes (outgoing pc) (controlledBlocks p) = true
  \/ includes (outgoing pc) (controlledBlocks p) = false ->
  outgoing (fst (resetEffect p pc)) = [].

(** "Even when isDisabled is true, a genuinely new externalValue still
    clears outgoing, sets incoming, resets the store and, when both
    selection endpoints are present, resets the selection." *)
Definition disabled_inbound_as_stated (p : Props) (pc : PendingChanges)
  : Prop :=
  isDisabled p = true ->
  includes (outgoing pc) (controlledBlocks p) = false ->
  outgoing (fst (resetEffect p pc)) = []
  /\ incoming (fst (resetEffect p pc)) = controlledBlocks p
  /\ (In (ResetBlocks (controlledBlocks p)) (snd (resetEffect p pc))
      \/ In (ReplaceInnerBlocks (clientId p) (controlledBlocks p))
            (snd (resetEffect p pc)))
  /\ (truthy (controlledSelectionStart p) = true ->
      truthy (controlledSelectionEnd p) = true ->
      In (ResetSelection (controlledSelectionStart p)
                         (controlledSelectionEnd p))
         (snd (resetEffect p pc))).

(** ** Sample inputs *)

(** A store whose every block list is the array at [addr] and whose
    selection runs between the objects at 100 and 101. *)
Definition storeAt (addr : nat) (persistent ignored : bool) : Store :=
  {| getBlocks := fun _ => addr;
     getSelectionStart := Obj 100;
     getSelectionEnd := Obj 101;
     isLastBlockChangePersistent := persistent;
     isLastBlockChangeIgnored := ignored |}.

(** A call of the hook without a controlled selection; [onChange] is
    function 1, [onInput] function 2. *)
Definition propsOf (cid v : value) (disabled : bool) : Props :=
  {| clientId := cid;
     controlledBlocks := v;
     isDisabled := disabled;
     onChange := 1;
     onInput := 2;
     controlledSelectionStart := Undefined;
     controlledSelectionEnd := Undefined |}.

(** The same with a controlled selection between the objects at 7 and 8. *)
Definition propsWithSelection (cid v : value) (disabled : bool) : Props :=
  {| clientId := cid;
     controlledBlocks := v;
     isDisabled := disabled;
     onChange := 1;
     onInput := 2;
     controlledSelectionStart := Obj 7;
     controlledSelectionEnd := Obj 8 |}.

Definition pendingOf (inc : value) (out : list value) : PendingChanges :=
  {| incoming := inc; outgoing := out |}.

(** A subscription of the top-level bridge that tracks [tracked]. *)
Definition subscriptionAt (tracked : value) (persistent previous : bool)
  : Subscription :=
  {| sub_clientId := Null;
     sub_onChange := 1;
     sub_onInput := 2;
     blocks := tracked;
     isPersistent := persistent;
     previousAreBlocksDifferent := previous |}.

(** ** Values and arrays *)

Section Values.

Lemma strict_eq_spec (a b : value) : strict_eq a b = true <-> a = b.
Proof.
  destruct a, b; simpl; split; intro H;
    try reflexivity; try discriminate.
  - apply Nat.eqb_eq in H. now subst.
  - injection H as ->. apply Nat.eqb_refl.
  - apply String.eqb_eq in H. now subst.
  - injection H as ->. apply String.eqb_refl.
Qed.

Lemma strict_eq_refl (a : value) : strict_eq a a = true.
Proof. now apply strict_eq_spec. Qed.

Lemma includes_In (l : list value) (v : value) :
  includes l v = true <-> In v l.
Proof.
  unfold includes. rewrite existsb_exists. split.
  - intros [x [Hx Heq]]. apply strict_eq_spec in Heq. now subst.
  - intro H. exists v. split; [exact H | apply strict_eq_refl].
Qed.

Lemma last_In (l : list value) : l <> [] -> In (last l) l.
Proof.
  unfold last. induction l as [|x [|y t] IH]; intro Hne.
  - contradiction.
  - now left.
  - right. apply IH. discriminate.
Qed.

(** The newest entry of a non-empty queue is one of its entries. *)
Lemma includes_last (l : list value) (v : value) :
  l <> [] -> strict_eq (last l) v = true -> includes l v = true.
Proof.
  intros Hne Heq. apply strict_eq_spec in Heq. subst v.
  apply includes_In, last_In, Hne.
Qed.

(** A queue holding [v], but not as its newest entry, has two entries. *)
Lemma includes_not_last_length (l : list value) (v : value) :
  includes l v = true -> strict_eq (last l) v = false -> 2 <= List.length l.
Proof.
  destruct l as [|x [|y t]]; simpl; intros Hin Hlast.
  - discriminate.
  - unfold last in Hlast. simpl in Hlast.
    rewrite orb_false_r in Hin. congruence.
  - lia.
Qed.

End Values.

(** ** The trace of the inbound effect *)

Section Traces.

Lemma callbacks_app (t u : list event) :
  callbacks (t ++ u) = callbacks t ++ callbacks u.
Proof. apply filter_app. Qed.

Lemma blockWrites_app (t u : list event) :
  blockWrites (t ++ u) = blockWrites t ++ blockWrites u.
Proof. apply filter_app. Qed.

Lemma setControlledBlocks_writes (p : Props) :
  blockWrites (setControlledBlocks p) = setControlledBlocks p.
Proof.
  unfold setControlledBlocks.
  destruct (truthy (controlledBlocks p)), (truthy (clientId p));
    reflexivity.
Qed.

Lemma resetSelection_writes (p : Props) :
  blockWrites (resetSelectionIfControlled p) = [].
Proof.
  unfold resetSelectionIfControlled.
  now destruct (truthy _ && truthy _).
Qed.

(** The inbound effect only ever dispatches; it calls nobody back. *)
Lemma resetEffect_callbacks (p : Props) (pc : PendingChanges) :
  callbacks (snd (resetEffect p pc)) = [].
Proof.
  unfold resetEffect, setControlledBlocks, resetSelectionIfControlled.
  destruct (includes _ _); [now destruct (strict_eq _ _)|].
  simpl. rewrite callbacks_app.
  destruct (truthy (controlledBlocks p)), (truthy (clientId p)),
    (truthy _ && truthy _); reflexivity.
Qed.

(** The block writes of a genuine reset are those of
    [setControlledBlocks]. *)
Lemma resetEffect_new_writes (p : Props) (pc : PendingChanges) :
  includes (outgoing pc) (controlledBlocks p) = false ->
  blockWrites (snd (resetEffect p pc)) = setControlledBlocks p.
Proof.
  intro Hnew. unfold resetEffect. rewrite Hnew. simpl.
  now rewrite blockWrites_app, setControlledBlocks_writes,
    resetSelection_writes, app_nil_r.
Qed.

End Traces.

(** ** Inbound reconciliation *)

Section Inbound.

Variable p : Props.
Variable pc : PendingChanges.

Let v := controlledBlocks p.

(** C1 (no self-echo).  When the queue of outbound pushes is not empty and
    the controlled value is, by reference, its newest entry, the inbound
    effect empties the queue, dispatches nothing at all (so neither
    [resetBlocks] nor [replaceInnerBlocks]) and leaves [incoming] as it
    was. *)
Theorem echo_of_last_push_clears_outgoing :
  outgoing pc <> [] ->
  strict_eq (last (outgoing pc)) v = true ->
  outgoing (fst (resetEffect p pc)) = []
  /\ snd (resetEffect p pc) = []
  /\ incoming (fst (resetEffect p pc)) = incoming pc.
Proof.
  intros Hne Hlast. unfold resetEffect. fold v.
  rewrite (includes_last _ Hne Hlast), Hlast. simpl. auto.
Qed.

(** C2, amended (genuine external reset).  For every controlled value that
    is present (truthy: an array, not [undefined] or [null]) and is not an
    entry of the queue, the inbound effect empties the queue, stores the
    value in [incoming] and writes the block tree exactly once with that
    value: [resetBlocks( value )] when [clientId] is null (falsy),
    [setHasControlledInnerBlocks], the not-persistent mark and
    [replaceInnerBlocks( clientId, value )] when it is set. *)
Theorem genuine_reset_of_present_value :
  truthy v = true ->
  includes (outgoing pc) v = false ->
  outgoing (fst (resetEffect p pc)) = []
  /\ incoming (fst (resetEffect p pc)) = v
  /\ (truthy (clientId p) = false ->
      blockWrites (snd (resetEffect p pc)) = [ ResetBlocks v ])
  /\ (truthy (clientId p) = true ->
      blockWrites (snd (resetEffect p pc))
      = [ SetHasControlledInnerBlocks (clientId p) true;
          MarkNextChangeAsNotPersistent;
          ReplaceInnerBlocks (clientId p) v ]).
Proof.
  intros Hv Hnew. rewrite (resetEffect_new_writes _ _ Hnew).
  unfold resetEffect, setControlledBlocks. fold v. rewrite Hnew, Hv. simpl.
  repeat split; intros ->; reflexivity.
Qed.

(** C4 (stale echo).  When the controlled value is an entry of the queue
    but not the newest one (which takes a queue of two entries at least),
    the inbound effect changes nothing: the queue and [incoming] stay as
    they are and nothing is dispatched. *)
Theorem stale_echo_leaves_pending_untouched :
  includes (outgoing pc) v = true ->
  strict_eq (last (outgoing pc)) v = false ->
  2 <= List.length (outgoing pc)
  /\ fst (resetEffect p pc) = pc
  /\ outgoing (fst (resetEffect p pc)) <> []
  /\ snd (resetEffect p pc) = [].
Proof.
  intros Hin Hlast.
  pose proof (includes_not_last_length _ _ Hin Hlast) as Hlen.
  unfold resetEffect. fold v. rewrite Hin, Hlast. simpl.
  repeat split; trivial.
  destruct (outgoing pc); [simpl in Hlen; lia | discriminate].
Qed.

(** C5, amended.  The inbound effect empties the queue whenever the
    controlled value either (a) is, by reference, the newest entry of the
    queue or (b) is no entry of it. *)
Theorem outgoing_cleared_on_last_or_new :
  strict_eq (last (outgoing pc)) v = true
  \/ includes (outgoing pc) v = false ->
  outgoing (fst (resetEffect p pc)) = [].
Proof.
  intros [Hlast | Hnew]; unfold resetEffect; fold v.
  - destruct (includes (outgoing pc) v); [rewrite Hlast|]; reflexivity.
  - now rewrite Hnew.
Qed.

(** C8 (absent value).  When the controlled value is [undefined] or
    [null], [setControlledBlocks] dispatches nothing and the whole inbound
    effect writes nothing to the block tree: no [resetBlocks],
    [replaceInnerBlocks], [setHasControlledInnerBlocks] or not-persistent
    mark.  The effect is a total function: it has no failing path. *)
Theorem absent_value_writes_nothing :
  v = Undefined \/ v = Null ->
  setControlledBlocks p = []
  /\ blockWrites (snd (resetEffect p pc)) = []
  /\ (snd (resetEffect p pc) = []
      \/ snd (resetEffect p pc)
         = [ ResetSelection (controlledSelectionStart p)
                            (controlledSelectionEnd p) ]).
Proof.
  intro Habs.
  assert (Hset : setControlledBlocks p = []).
  { unfold setControlledBlocks. fold v. now destruct Habs as [-> | ->]. }
  split; [exact Hset|].
  unfold resetEffect, resetSelectionIfControlled. rewrite Hset.
  destruct (includes _ _); [destruct (strict_eq _ _); simpl; auto|].
  destruct (truthy _ && truthy _); simpl; auto.
Qed.

(** C9, amended.  The disabled flag does not reach the inbound effect:
    with [isDisabled] true the outbound effect subscribes to nothing,
    while a present controlled value that is no entry of the queue still
    empties the queue, is stored in [incoming], is written to the store
    and, when both selection endpoints are present, is followed by
    [resetSelection]. *)
Theorem disabled_bridge_still_resets_present_value :
  isDisabled p = true ->
  truthy v = true ->
  includes (outgoing pc) v = false ->
  (forall st, subscribeEffect p st = None)
  /\ outgoing (fst (resetEffect p pc)) = []
  /\ incoming (fst (resetEffect p pc)) = v
  /\ (In (ResetBlocks v) (snd (resetEffect p pc))
      \/ In (ReplaceInnerBlocks (clientId p) v) (snd (resetEffect p pc)))
  /\ (truthy (controlledSelectionStart p) = true ->
      truthy (controlledSelectionEnd p) = true ->
      In (ResetSelection (controlledSelectionStart p)
                         (controlledSelectionEnd p))
         (snd (resetEffect p pc))).
Proof.
  intros Hdis Hv Hnew.
  split; [intro st; unfold subscribeEffect; now rewrite Hdis|].
  unfold resetEffect, setControlledBlocks, resetSelectionIfControlled.
  fold v. rewrite Hnew, Hv. simpl. repeat split.
  - destruct (truthy (clientId p)); simpl; auto.
  - intros -> ->. apply in_or_app. right. now left.
Qed.

End Inbound.

(** ** Outbound watch *)

Section Outbound.

Variable st : Store.
Variable pc : PendingChanges.
Variable s : Subscription.

(** C3 (suppression).  On a notification where the block list read from
    the store differs by reference from the tracked one and either
    [incoming] holds a value (is truthy, as the code tests it) or the store
    reports the last change as ignored, the subscriber sets [incoming] to [null], tracks the new
    block list and the new persistence flag, and calls neither [onChange]
    nor [onInput]; the queue of outbound pushes is not touched. *)
Theorem suppressed_notification_is_not_forwarded :
  areBlocksDifferent st s = true ->
  truthy (incoming pc) = true \/ isLastBlockChangeIgnored st = true ->
  let '(pc', s', tr) := subscriber st pc s in
  incoming pc' = Null
  /\ outgoing pc' = outgoing pc
  /\ blocks s' = Obj (getBlocks st (sub_clientId s))
  /\ isPersistent s' = isLastBlockChangePersistent st
  /\ tr = [].
Proof.
  intros Hdiff Hwhy. unfold subscriber. rewrite Hdiff.
  replace (truthy (incoming pc) || isLastBlockChangeIgnored st) with true
    by (symmetry; apply orb_true_iff; exact Hwhy).
  simpl. repeat split.
Qed.

(** A notification that is not suppressed and sees a different block list
    is forwarded: [onChange] for a persistent change, [onInput]
    otherwise. *)
Lemma different_blocks_are_forwarded :
  areBlocksDifferent st s = true ->
  truthy (incoming pc) = false ->
  isLastBlockChangeIgnored st = false ->
  subscriber st pc s
  = ({| incoming := incoming pc;
        outgoing := outgoing pc ++ [newBlocks st s] |},
     {| sub_clientId := sub_clientId s;
        sub_onChange := sub_onChange s;
        sub_onInput := sub_onInput s;
        blocks := newBlocks st s;
        isPersistent := isLastBlockChangePersistent st;
        previousAreBlocksDifferent := true |},
     [ if isLastBlockChangePersistent st
       then OnChange (sub_onChange s) (newBlocks st s)
                     (getSelectionStart st) (getSelectionEnd st)
       else OnInput (sub_onInput s) (newBlocks st s)
                    (getSelectionStart st) (getSelectionEnd st) ]).
Proof.
  intros Hdiff Hin Hign. unfold subscriber.
  rewrite Hdiff, Hin, Hign. reflexivity.
Qed.

(** C6 (persistence commit).  Let a first notification see a different
    block list, be forwarded and report a non-persistent change; let the
    next one see the same block list by reference and a persistent last
    change.  Then the first called [onInput] and the second calls
    [onChange] once, with the tracked block list and the selection the
    store holds then, and does not call [onInput] -- whatever [incoming]
    and the queue hold at that moment. *)
Theorem persistence_commit_calls_onChange_once :
  forall (st2 : Store) (pc2 : PendingChanges),
  areBlocksDifferent st s = true ->
  truthy (incoming pc) = false ->
  isLastBlockChangeIgnored st = false ->
  isLastBlockChangePersistent st = false ->
  getBlocks st2 (sub_clientId s) = getBlocks st (sub_clientId s) ->
  isLastBlockChangePersistent st2 = true ->
  let '(_, s1, tr1) := subscriber st pc s in
  tr1 = [ OnInput (sub_onInput s) (Obj (getBlocks st (sub_clientId s)))
                  (getSelectionStart st) (getSelectionEnd st) ]
  /\ snd (subscriber st2 pc2 s1)
     = [ OnChange (sub_onChange s) (Obj (getBlocks st (sub_clientId s)))
                  (getSelectionStart st2) (getSelectionEnd st2) ].
Proof.
  intros st2 pc2 Hdiff Hin Hign Hnp Hsame Hp.
  rewrite (different_blocks_are_forwarded Hdiff Hin Hign), Hnp.
  split; [reflexivity|].
  unfold subscriber, didPersistenceChange, areBlocksDifferent, newBlocks.
  simpl. rewrite Hsame, Nat.eqb_refl, Hp. reflexivity.
Qed.

End Outbound.

(** C10 (first notification).  A subscription that has just been made
    tracks no block list yet ([blocks] is [undefined]), so its first
    notification finds the blocks different whatever the store holds; and
    unless [incoming] holds a value or the last change is marked ignored, it
    calls [onChange] (persistent) or [onInput] (otherwise) with the block
    list and the selection bounds of the store. *)
Theorem first_notification_is_always_forwarded :
  forall (p : Props) (st0 : Store) (s : Subscription),
  subscribeEffect p st0 = Some s ->
  blocks s = Undefined
  /\ forall (st : Store) (pc : PendingChanges),
     areBlocksDifferent st s = true
     /\ (truthy (incoming pc) = false ->
         isLastBlockChangeIgnored st = false ->
         snd (subscriber st pc s)
         = [ if isLastBlockChangePersistent st
             then OnChange (onChange p) (Obj (getBlocks st (clientId p)))
                           (getSelectionStart st) (getSelectionEnd st)
             else OnInput (onInput p) (Obj (getBlocks st (clientId p)))
                          (getSelectionStart st) (getSelectionEnd st) ]).
Proof.
  intros p st0 s Hsub. unfold subscribeEffect in Hsub.
  destruct (isDisabled p); [discriminate|].
  injection Hsub as <-. split; [reflexivity|].
  intros st pc.
  assert (Hdiff : forall x, areBlocksDifferent st
            {| sub_clientId := clientId p; sub_onChange := onChange p;
               sub_onInput := onInput p; blocks := Undefined;
               isPersistent := x; previousAreBlocksDifferent := false |}
            = true) by reflexivity.
  split; [apply Hdiff|].
  intros Hin Hign.
  now rewrite (different_blocks_are_forwarded _ _ _ (Hdiff _) Hin Hign).
Qed.

(** ** The disabled bridge *)

Section Disabled.

(** Without a subscription a bridge stays without one as long as every
    render passes [isDisabled], and nothing it does is a callback. *)
Lemma step_without_subscription (b : Bridge) (i : input) :
  subscription b = None ->
  inputKeepsDisabled i = true ->
  subscription (fst (step b i)) = None
  /\ callbacks (snd (step b i)) = [].
Proof.
  intros Hnone Hdis. destruct i as [st | q st]; simpl in *.
  - unfold notify. rewrite Hnone. simpl. auto.
  - unfold rerender.
    assert (Hsub : (if subscribeDepsChanged (rendered b) (withDefaults q)
                    then subscribeEffect (withDefaults q) st
                    else subscription b) = None).
    { destruct (subscribeDepsChanged _ _); [|exact Hnone].
      unfold subscribeEffect. simpl. now rewrite Hdis. }
    rewrite Hsub.
    destruct (resetDepsChanged _ _).
    + pose proof (resetEffect_callbacks (withDefaults q) (pendingChanges b)).
      destruct (resetEffect _ _). simpl in *. auto.
    + simpl. auto.
Qed.

Lemma run_without_subscription (inputs : list input) :
  forall b : Bridge,
  subscription b = None ->
  forallb inputKeepsDisabled inputs = true ->
  callbacks (snd (run b inputs)) = [].
Proof.
  induction inputs as [|i rest IH]; intros b Hnone Hall; simpl in *.
  - reflexivity.
  - apply andb_true_iff in Hall as [Hi Hrest].
    destruct (step_without_subscription b i Hnone Hi) as [Hsub Hcb].
    destruct (step b i) as [b1 tr1]. simpl in *.
    specialize (IH b1 Hsub Hrest).
    destruct (run b1 rest) as [b2 tr2]. simpl in *.
    now rewrite callbacks_app, Hcb, IH.
Qed.

(** X15 (bridge disabled since mount).  With [isDisabled] true the outbound
    effect makes no subscription, and a bridge mounted that way calls
    neither [onChange] nor [onInput]: not while mounting and not during any
    sequence of store notifications, also when these are interleaved with
    renders that keep [isDisabled] true. *)
Theorem disabled_bridge_never_calls_back :
  forall (p : Props) (st0 : Store) (inputs : list input),
  isDisabled p = true ->
  forallb inputKeepsDisabled inputs = true ->
  subscribeEffect p st0 = None
  /\ subscription (fst (mount p st0)) = None
  /\ callbacks (snd (mount p st0)
                ++ snd (run (fst (mount p st0)) inputs)) = [].
Proof.
  intros p st0 inputs Hdis Hall.
  assert (Hnone : subscription (fst (mount p st0)) = None).
  { unfold mount. destruct (resetEffect _ _). simpl.
    unfold subscribeEffect. simpl. now rewrite Hdis. }
  repeat split.
  - unfold subscribeEffect. now rewrite Hdis.
  - exact Hnone.
  - rewrite callbacks_app, (run_without_subscription _ _ Hnone Hall).
    unfold mount.
    pose proof (resetEffect_callbacks (withDefaults p) initialPendingChanges).
    destruct (resetEffect _ _). simpl in *. now rewrite app_nil_r.
Qed.

(** C7 (disabled bridge), where the code departs from it.  The comment of
    the outbound effect says that a disabled component never updates its
    controller, but [isDisabled] is not among the effect's dependencies.  A
    top-level bridge is mounted enabled with the list at address 0 and sees
    the echo of that reset; it is then rendered again with the same
    callbacks, client id and value and with [isDisabled] true, which
    dispatches and calls nothing and leaves the subscription in place; the
    store then notifies a persistent change to the list at address 1.  The
    bridge, though disabled, calls [onChange] with that list. *)
Theorem late_disabling_still_calls_onChange :
  let '(b0, _) := mount (propsOf Null (Obj 0) false) (storeAt 9 false false) in
  let '(b1, tr1) := run b0 [ Notify (storeAt 0 false false);
                             Render (propsOf Null (Obj 0) true)
                                    (storeAt 0 false false) ] in
  let '(_, tr2) := notify b1 (storeAt 1 true false) in
  isDisabled (rendered b1) = true
  /\ subscribeEffect (rendered b1) (storeAt 0 false false) = None
  /\ subscription b1 <> None
  /\ tr1 = []
  /\ tr2 = [ OnChange 1 (Obj 1) (Obj 100) (Obj 101) ].
Proof.
  vm_compute. repeat split. discriminate.
Qed.

End Disabled.

(** ** The claims on sample inputs *)

Section Samples.

(** The scenario of the specification: a top-level bridge controlled by
    the empty list at address 0; the store first echoes the reset, then an
    edit makes the list at address 1 (persistent); the controlling entity
    renders that very list back. *)
Example scenario_edit_then_echo :
  let '(b0, tr0) := mount (propsOf Null (Obj 0) false) (storeAt 9 false false) in
  let '(b1, tr1) := run b0 [ Notify (storeAt 0 false false);
                             Notify (storeAt 1 true false) ] in
  let '(b2, tr2) := rerender b1 (propsOf Null (Obj 1) false)
                             (storeAt 1 true false) in
  tr0 = [ ResetBlocks (Obj 0) ]
  /\ tr1 = [ OnChange 1 (Obj 1) (Obj 100) (Obj 101) ]
  /\ outgoing (pendingChanges b1) = [ Obj 1 ]
  /\ tr2 = []
  /\ outgoing (pendingChanges b2) = [].
Proof. vm_compute. repeat split. Qed.

(** [isDisabled] is no dependency of the outbound effect: a subscription
    made while enabled outlives a render that only turns the flag on. *)
Example subscription_outlives_late_disabling :
  let '(b0, _) := mount (propsOf Null (Obj 0) false) (storeAt 0 false false) in
  let '(b1, _) := rerender b0 (propsOf Null (Obj 0) true)
                           (storeAt 0 false false) in
  subscription b1 <> None.
Proof. vm_compute. discriminate. Qed.

(** C2, counterexample: a top-level bridge without a controlled value
    ([undefined], which is no entry of the empty queue) resets nothing. *)
Lemma genuine_reset_fails_for_absent_value :
  ~ genuine_reset_as_stated (propsOf Null Undefined false)
                            initialPendingChanges.
Proof.
  intro H. destruct (H eq_refl) as (_ & _ & Hreset & _).
  specialize (Hreset eq_refl). vm_compute in Hreset. discriminate.
Qed.

(** C5, counterexample: with the queue [[A; B]] and the controlled value
    [A], an entry of the queue, the queue is kept. *)
Lemma outgoing_kept_on_stale_echo :
  ~ outgoing_cleared_as_stated (propsOf Null (Obj 1) false)
                               (pendingOf Null [ Obj 1; Obj 2 ]).
Proof.
  intro H. specialize (H (or_introl eq_refl)).
  vm_compute in H. discriminate.
Qed.

(** C9, counterexample: a disabled top-level bridge whose controlled value
    is [null] dispatches no reset. *)
Lemma disabled_inbound_fails_for_absent_value :
  ~ disabled_inbound_as_stated (propsOf Null Null true)
                               initialPendingChanges.
Proof.
  intro H. destruct (H eq_refl eq_refl) as (_ & _ & Hreset & _).
  vm_compute in Hreset. tauto.
Qed.

(** *** Each theorem applied to a sample input *)

Lemma echo_of_last_push_clears_outgoing_witness :
  let p := propsOf Null (Obj 2) false in
  let pc := pendingOf (Obj 9) [ Obj 1; Obj 2 ] in
  outgoing pc <> []
  /\ strict_eq (last (outgoing pc)) (controlledBlocks p) = true
  /\ outgoing (fst (resetEffect p pc)) = []
  /\ snd (resetEffect p pc) = []
  /\ incoming (fst (resetEffect p pc)) = Obj 9.
Proof.
  intros p pc.
  assert (Hne : outgoing pc <> []) by discriminate.
  assert (Hlast : strict_eq (last (outgoing pc)) (controlledBlocks p) = true)
    by reflexivity.
  split; [exact Hne|]. split; [exact Hlast|].
  exact (echo_of_last_push_clears_outgoing p pc Hne Hlast).
Defined.

Lemma genuine_reset_of_present_value_witness :
  let p := propsWithSelection (Str "inner") (Obj 5) false in
  let pc := pendingOf Null [ Obj 1 ] in
  truthy (controlledBlocks p) = true
  /\ includes (outgoing pc) (controlledBlocks p) = false
  /\ outgoing (fst (resetEffect p pc)) = []
  /\ incoming (fst (resetEffect p pc)) = Obj 5
  /\ (truthy (clientId p) = false ->
      blockWrites (snd (resetEffect p pc)) = [ ResetBlocks (Obj 5) ])
  /\ (truthy (clientId p) = true ->
      blockWrites (snd (resetEffect p pc))
      = [ SetHasControlledInnerBlocks (Str "inner") true;
          MarkNextChangeAsNotPersistent;
          ReplaceInnerBlocks (Str "inner") (Obj 5) ]).
Proof.
  intros p pc.
  split; [reflexivity|]. split; [reflexivity|].
  exact (genuine_reset_of_present_value p pc eq_refl eq_refl).
Defined.

Lemma suppressed_notification_is_not_forwarded_witness :
  let st := storeAt 3 true false in
  let pc := pendingOf (Obj 3) [ Obj 1 ] in
  let s := subscriptionAt (Obj 0) false false in
  areBlocksDifferent st s = true
  /\ (truthy (incoming pc) = true \/ isLastBlockChangeIgnored st = true)
  /\ let '(pc', s', tr) := subscriber st pc s in
     incoming pc' = Null
     /\ outgoing pc' = [ Obj 1 ]
     /\ blocks s' = Obj 3
     /\ isPersistent s' = true
     /\ tr = [].
Proof.
  intros st pc s.
  split; [reflexivity|]. split; [left; reflexivity|].
  exact (suppressed_notification_is_not_forwarded st pc s
           eq_refl (or_introl eq_refl)).
Defined.

Lemma stale_echo_leaves_pending_untouched_witness :
  let p := propsWithSelection Null (Obj 1) false in
  let pc := pendingOf Null [ Obj 1; Obj 2 ] in
  includes (outgoing pc) (controlledBlocks p) = true
  /\ strict_eq (last (outgoing pc)) (controlledBlocks p) = false
  /\ 2 <= List.length (outgoing pc)
  /\ fst (resetEffect p pc) = pc
  /\ outgoing (fst (resetEffect p pc)) <> []
  /\ snd (resetEffect p pc) = [].
Proof.
  intros p pc.
  split; [reflexivity|]. split; [reflexivity|].
  exact (stale_echo_leaves_pending_untouched p pc eq_refl eq_refl).
Defined.

Lemma outgoing_cleared_on_last_or_new_witness :
  let p := propsOf Null (Obj 2) false in
  let pc := pendingOf Null [ Obj 1; Obj 2 ] in
  (strict_eq (last (outgoing pc)) (controlledBlocks p) = true
   \/ includes (outgoing pc) (controlledBlocks p) = false)
  /\ outgoing (fst (resetEffect p pc)) = [].
Proof.
  intros p pc.
  split; [left; reflexivity|].
  exact (outgoing_cleared_on_last_or_new p pc (or_introl eq_refl)).
Defined.

Lemma persistence_commit_calls_onChange_once_witness :
  let st := storeAt 1 false false in
  let pc := pendingOf Null [] in
  let s := subscriptionAt (Obj 0) false false in
  let st2 := storeAt 1 true false in
  let pc2 := pendingOf Null [ Obj 1 ] in
  areBlocksDifferent st s = true
  /\ truthy (incoming pc) = false
  /\ isLastBlockChangeIgnored st = false
  /\ isLastBlockChangePersistent st = false
  /\ getBlocks st2 (sub_clientId s) = getBlocks st (sub_clientId s)
  /\ isLastBlockChangePersistent st2 = true
  /\ let '(_, s1, tr1) := subscriber st pc s in
     tr1 = [ OnInput 2 (Obj 1) (Obj 100) (Obj 101) ]
     /\ snd (subscriber st2 pc2 s1)
        = [ OnChange 1 (Obj 1) (Obj 100) (Obj 101) ].
Proof.
  intros st pc s st2 pc2.
  do 6 (split; [reflexivity|]).
  exact (persistence_commit_calls_onChange_once st pc s st2 pc2
           eq_refl eq_refl eq_refl eq_refl eq_refl eq_refl).
Defined.

Lemma disabled_bridge_never_calls_back_witness :
  let p := propsOf Null (Obj 0) true in
  let st0 := storeAt 0 false false in
  let inputs := [ Notify (storeAt 1 true false);
                  Render (propsOf Null (Obj 2) true) (storeAt 1 true false);
                  Notify (storeAt 3 false false) ] in
  isDisabled p = true
  /\ forallb inputKeepsDisabled inputs = true
  /\ subscribeEffect p st0 = None
  /\ subscription (fst (mount p st0)) = None
  /\ callbacks (snd (mount p st0)
                ++ snd (run (fst (mount p st0)) inputs)) = [].
Proof.
  intros p st0 inputs.
  split; [reflexivity|]. split; [reflexivity|].
  exact (disabled_bridge_never_calls_back p st0 inputs eq_refl eq_refl).
Defined.

Lemma absent_value_writes_nothing_witness :
  let p := propsWithSelection (Str "inner") Undefined false in
  let pc := pendingOf Null [ Obj 1 ] in
  (controlledBlocks p = Undefined \/ controlledBlocks p = Null)
  /\ setControlledBlocks p = []
  /\ blockWrites (snd (resetEffect p pc)) = []
  /\ (snd (resetEffect p pc) = []
      \/ snd (resetEffect p pc) = [ ResetSelection (Obj 7) (Obj 8) ]).
Proof.
  intros p pc.
  split; [left; reflexivity|].
  exact (absent_value_writes_nothing p pc (or_introl eq_refl)).
Defined.

Lemma disabled_bridge_still_resets_present_value_witness :
  let p := propsWithSelection Null (Obj 5) true in
  let pc := pendingOf Null [ Obj 1 ] in
  isDisabled p = true
  /\ truthy (controlledBlocks p) = true
  /\ includes (outgoing pc) (controlledBlocks p) = false
  /\ (forall st, subscribeEffect p st = None)
  /\ outgoing (fst (resetEffect p pc)) = []
  /\ incoming (fst (resetEffect p pc)) = Obj 5
  /\ (In (ResetBlocks (Obj 5)) (snd (resetEffect p pc))
      \/ In (ReplaceInnerBlocks Null (Obj 5)) (snd (resetEffect p pc)))
  /\ (truthy (controlledSelectionStart p) = true ->
      truthy (controlledSelectionEnd p) = true ->
      In (ResetSelection (Obj 7) (Obj 8)) (snd (resetEffect p pc))).
Proof.
  intros p pc.
  do 3 (split; [reflexivity|]).
  exact (disabled_bridge_still_resets_present_value p pc
           eq_refl eq_refl eq_refl).
Defined.

Lemma first_notification_is_always_forwarded_witness :
  let p := propsOf (Str "inner") (Obj 0) false in
  let st0 := storeAt 0 true false in
  let s := {| sub_clientId := Str "inner"; sub_onChange := 1;
              sub_onInput := 2; blocks := Undefined;
              isPersistent := true;
              previousAreBlocksDifferent := false |} in
  subscribeEffect p st0 = Some s
  /\ blocks s = Undefined
  /\ forall (st : Store) (pc : PendingChanges),
     areBlocksDifferent st s = true
     /\ (truthy (incoming pc) = false ->
         isLastBlockChangeIgnored st = false ->
         snd (subscriber st pc s)
         = [ if isLastBlockChangePersistent st
             then OnChange 1 (Obj (getBlocks st (Str "inner")))
                           (getSelectionStart st) (getSelectionEnd st)
             else OnInput 2 (Obj (getBlocks st (Str "inner")))
                          (getSelectionStart st) (getSelectionEnd st) ]).
Proof.
  intros p st0 s.
  split; [reflexivity|].
  exact (first_notification_is_always_forwarded p st0 eq_refl).
Defined.

End Samples.

(** ** One notification, in full *)

Section Notification.

Variable st : Store.
Variable pc : PendingChanges.
Variable s : Subscription.

(** The three ways out of the subscriber. *)
Lemma subscriber_cases :
  (areBlocksDifferent st s = true
   /\ truthy (incoming pc) || isLastBlockChangeIgnored st = true
   /\ subscriber st pc s
      = ({| incoming := Null; outgoing := outgoing pc |},
         {| sub_clientId := sub_clientId s;
            sub_onChange := sub_onChange s;
            sub_onInput := sub_onInput s;
            blocks := newBlocks st s;
            isPersistent := isLastBlockChangePersistent st;
            previousAreBlocksDifferent := previousAreBlocksDifferent s |},
         []))
  \/ (areBlocksDifferent st s || didPersistenceChange st s = true
      /\ exists e,
         forwardedBlocks [e] = [newBlocks st s]
         /\ isCallback e = true
         /\ subscriber st pc s
            = ({| incoming := incoming pc;
                  outgoing := outgoing pc ++ [newBlocks st s] |},
               {| sub_clientId := sub_clientId s;
                  sub_onChange := sub_onChange s;
                  sub_onInput := sub_onInput s;
                  blocks := newBlocks st s;
                  isPersistent := isLastBlockChangePersistent st;
                  previousAreBlocksDifferent := areBlocksDifferent st s |},
               [e]))
  \/ (areBlocksDifferent st s = false
      /\ didPersistenceChange st s = false
      /\ subscriber st pc s
         = (pc,
            {| sub_clientId := sub_clientId s;
               sub_onChange := sub_onChange s;
               sub_onInput := sub_onInput s;
               blocks := blocks s;
               isPersistent := isPersistent s;
               previousAreBlocksDifferent := false |},
            [])).
Proof.
  unfold subscriber.
  destruct (areBlocksDifferent st s) eqn:Hdiff; simpl.
  - destruct (truthy (incoming pc) || isLastBlockChangeIgnored st) eqn:Hsup.
    + left. auto.
    + right; left. split; [reflexivity|].
      destruct (isLastBlockChangePersistent st); eexists;
        (split; [|split]); [| |reflexivity| | |reflexivity]; reflexivity.
  - destruct (didPersistenceChange st s) eqn:Hdid.
    + right; left. split; [reflexivity|].
      destruct (isLastBlockChangePersistent st); eexists;
        (split; [|split]); [| |reflexivity| | |reflexivity]; reflexivity.
    + right; right. auto.
Qed.

(** Blocks that are not different are the tracked ones. *)
Lemma same_blocks_are_tracked :
  areBlocksDifferent st s = false -> blocks s = newBlocks st s.
Proof.
  unfold areBlocksDifferent. intro H.
  apply negb_false_iff, strict_eq_spec in H. now symmetry.
Qed.

Lemma subscriber_outgoing :
  outgoing (fst (fst (subscriber st pc s)))
  = outgoing pc ++ forwardedBlocks (snd (subscriber st pc s)).
Proof.
  destruct subscriber_cases as [(_ & _ & ->) | [(_ & e & He & _ & ->) | (_ & _ & ->)]];
    simpl fst; simpl snd; simpl outgoing.
  - simpl. now rewrite app_nil_r.
  - now rewrite He.
  - simpl. now rewrite app_nil_r.
Qed.

Lemma subscriber_only_calls_back :
  forallb isCallback (snd (subscriber st pc s)) = true
  /\ List.length (snd (subscriber st pc s)) <= 1.
Proof.
  destruct subscriber_cases as [(_ & _ & ->) | [(_ & e & _ & He & ->) | (_ & _ & ->)]];
    simpl; auto.
  rewrite He. auto.
Qed.

(** X1.  One notification calls back at most once and dispatches nothing to
    the store; the queue of outbound pushes grows by exactly the block lists
    that were handed over, and [incoming] is either kept or set to
    [null]. *)
Theorem notification_queues_what_it_forwards :
  let '(pc', _, tr) := subscriber st pc s in
  outgoing pc' = outgoing pc ++ forwardedBlocks tr
  /\ List.length tr <= 1
  /\ forallb isCallback tr = true
  /\ (incoming pc' = incoming pc \/ incoming pc' = Null).
Proof.
  pose proof subscriber_outgoing as Hout.
  pose proof subscriber_only_calls_back as [Hcb Hlen].
  assert (Hinc : incoming (fst (fst (subscriber st pc s))) = incoming pc
                 \/ incoming (fst (fst (subscriber st pc s))) = Null).
  { destruct subscriber_cases
      as [(_ & _ & ->) | [(_ & e & _ & _ & ->) | (_ & _ & ->)]]; simpl; auto. }
  destruct (subscriber st pc s) as [[pc' s'] tr]. simpl in *. auto.
Qed.

(** X2.  After every notification, whichever way it went, the subscription
    tracks the block list the store answered, and still reads the same
    client id and calls the same two functions. *)
Theorem subscription_tracks_the_store :
  let s' := snd (fst (subscriber st pc s)) in
  blocks s' = Obj (getBlocks st (sub_clientId s))
  /\ sub_clientId s' = sub_clientId s
  /\ sub_onChange s' = sub_onChange s
  /\ sub_onInput s' = sub_onInput s.
Proof.
  destruct subscriber_cases
    as [(_ & _ & ->) | [(_ & e & _ & _ & ->) | (Hsame & _ & ->)]];
    simpl; repeat split.
  apply same_blocks_are_tracked, Hsame.
Qed.

End Notification.

(** ** Notifications in a row *)

Section Notifications.

Variable st : Store.
Variable pc : PendingChanges.
Variable s : Subscription.

(** X3.  A notification that finds the store as the previous notification
    left it is silent: it calls nobody, leaves [pendingChanges] alone and
    keeps what the subscription tracks. *)
Theorem repeated_notification_is_silent :
  let '(pc1, s1, _) := subscriber st pc s in
  let '(pc2, s2, tr2) := subscriber st pc1 s1 in
  tr2 = []
  /\ pc2 = pc1
  /\ blocks s2 = blocks s1
  /\ isPersistent s2 = isPersistent s1.
Proof.
  destruct (subscriber_cases st pc s)
    as [(_ & _ & ->) | [(_ & e & _ & _ & ->) | (Hsame & _ & ->)]].
  - unfold subscriber, didPersistenceChange, areBlocksDifferent, newBlocks.
    simpl. rewrite Nat.eqb_refl.
    destruct (previousAreBlocksDifferent s), (isLastBlockChangePersistent st);
      simpl; auto.
  - unfold subscriber, didPersistenceChange, areBlocksDifferent, newBlocks.
    simpl. rewrite Nat.eqb_refl.
    destruct (isLastBlockChangePersistent st); simpl;
      repeat (rewrite andb_true_r || rewrite andb_false_r); simpl; auto.
  - unfold subscriber, didPersistenceChange.
    replace (areBlocksDifferent st _) with false by (symmetry; exact Hsame).
    simpl. auto.
Qed.

(** X4.  The early return of a suppressed notification does not touch
    [previousAreBlocksDifferent].  So when the notification before a
    suppressed one had seen different blocks, a following notification with
    the same block list and a last change that turned persistent is a
    commit: it calls [onChange] with the block list of the suppressed
    notification and queues it; when it had not, that notification is
    silent. *)
Theorem suppression_keeps_previous_difference :
  forall (st2 : Store) (pc2 : PendingChanges),
  areBlocksDifferent st s = true ->
  truthy (incoming pc) = true \/ isLastBlockChangeIgnored st = true ->
  isLastBlockChangePersistent st = false ->
  getBlocks st2 (sub_clientId s) = getBlocks st (sub_clientId s) ->
  isLastBlockChangePersistent st2 = true ->
  let s1 := snd (fst (subscriber st pc s)) in
  snd (subscriber st pc s) = []
  /\ snd (subscriber st2 pc2 s1)
     = if previousAreBlocksDifferent s
       then [ OnChange (sub_onChange s) (Obj (getBlocks st (sub_clientId s)))
                       (getSelectionStart st2) (getSelectionEnd st2) ]
       else [].
Proof.
  intros st2 pc2 Hdiff Hwhy Hnp Hsame Hp.
  destruct (subscriber_cases st pc s)
    as [(_ & _ & ->) | [(_ & e & _ & _ & Heq) | (Hno & _)]].
  - simpl. split; [reflexivity|].
    unfold subscriber, didPersistenceChange, areBlocksDifferent, newBlocks.
    simpl. rewrite Hsame, Nat.eqb_refl, Hp, Hnp. simpl.
    destruct (previousAreBlocksDifferent s); reflexivity.
  - exfalso. unfold subscriber in Heq. rewrite Hdiff in Heq.
    replace (truthy (incoming pc) || isLastBlockChangeIgnored st) with true
      in Heq by (symmetry; apply orb_true_iff; exact Hwhy).
    simpl in Heq. discriminate.
  - congruence.
Qed.

End Notifications.

(** ** Outbound push and inbound echo together *)

Section Echo.

Variable st : Store.
Variable pc : PendingChanges.
Variable s : Subscription.
Variable p : Props.

(** X5.  Whatever block list a notification hands to [onChange] or
    [onInput], rendering the hook with that very list as its value right
    afterwards dispatches nothing at all, empties the queue and leaves
    [incoming] as it was before the notification. *)
Theorem forwarded_value_rendered_back_resets_nothing :
  In (controlledBlocks p) (forwardedBlocks (snd (subscriber st pc s))) ->
  resetEffect p (fst (fst (subscriber st pc s)))
  = ({| incoming := incoming pc; outgoing := [] |}, []).
Proof.
  destruct (subscriber_cases st pc s)
    as [(_ & _ & ->) | [(_ & e & He & _ & ->) | (_ & _ & ->)]];
    simpl fst; simpl snd; try (simpl; contradiction).
  rewrite He. intros [Hv | []].
  unfold resetEffect. simpl incoming. simpl outgoing.
  assert (Hlast : last (outgoing pc ++ [newBlocks st s]) = controlledBlocks p).
  { unfold last. now rewrite last_last. }
  assert (Hinc : includes (outgoing pc ++ [newBlocks st s]) (controlledBlocks p)
                 = true).
  { apply includes_In, in_or_app. right. now left. }
  now rewrite Hinc, Hlast, strict_eq_refl.
Qed.

End Echo.

(** ** What the inbound effect dispatches, exactly *)

Section Dispatch.

Variable p : Props.
Variable pc : PendingChanges.

(** X6.  The inbound effect writes the block tree of the store if and only
    if the controlled value is present and is no entry of the queue of
    outbound pushes. *)
Theorem store_written_iff_value_present_and_new :
  blockWrites (snd (resetEffect p pc)) <> []
  <-> truthy (controlledBlocks p) = true
      /\ includes (outgoing pc) (controlledBlocks p) = false.
Proof.
  destruct (includes (outgoing pc) (controlledBlocks p)) eqn:Hinc.
  - unfold resetEffect. rewrite Hinc.
    destruct (strict_eq _ _); simpl; split;
      [congruence | intros [_ H]; discriminate
      |congruence | intros [_ H]; discriminate].
  - rewrite (resetEffect_new_writes _ _ Hinc). unfold setControlledBlocks.
    destruct (truthy (controlledBlocks p)); simpl.
    + split; [auto|]. intros _. destruct (truthy (clientId p)); discriminate.
    + split; [congruence | intros [H _]; discriminate].
Qed.

(** X7.  [resetSelection] is dispatched if and only if the controlled value
    is no entry of the queue and both selection endpoints are present; it is
    then called with exactly these two.  With one endpoint missing the
    selection is never reset; with the value missing and both endpoints
    present it still is. *)
Theorem selection_reset_iff_new_value_and_both_endpoints :
  forall a b : value,
  In (ResetSelection a b) (snd (resetEffect p pc))
  <-> includes (outgoing pc) (controlledBlocks p) = false
      /\ truthy (controlledSelectionStart p) = true
      /\ truthy (controlledSelectionEnd p) = true
      /\ a = controlledSelectionStart p
      /\ b = controlledSelectionEnd p.
Proof.
  intros a b. unfold resetEffect, setControlledBlocks,
    resetSelectionIfControlled.
  destruct (includes (outgoing pc) (controlledBlocks p)).
  - destruct (strict_eq _ _); simpl; split;
      [contradiction | intros [H _]; discriminate
      |contradiction | intros [H _]; discriminate].
  - simpl.
    destruct (truthy (controlledBlocks p)), (truthy (clientId p)),
      (truthy (controlledSelectionStart p)),
      (truthy (controlledSelectionEnd p)); simpl; split;
      try (intros (_ & H1 & H2 & _); discriminate);
      try (intros (_ & _ & _ & -> & ->); tauto);
      intro H; repeat (destruct H as [H | H]; try discriminate);
      try contradiction; injection H as <- <-; auto.
Qed.

End Dispatch.

(** ** The mounted hook over many renders and notifications *)

Section Lifecycle.

Lemma forwardedBlocks_app (t u : list event) :
  forwardedBlocks (t ++ u) = forwardedBlocks t ++ forwardedBlocks u.
Proof. apply flat_map_app. Qed.

Lemma subscriber_forwards_block_lists st pc s :
  forallb isBlockList (forwardedBlocks (snd (subscriber st pc s))) = true.
Proof.
  destruct (subscriber_cases st pc s)
    as [(_ & _ & ->) | [(_ & e & He & _ & ->) | (_ & _ & ->)]];
    simpl snd; [reflexivity | now rewrite He | reflexivity].
Qed.

Lemma notify_outgoing (b : Bridge) (st : Store) :
  outgoing (pendingChanges (fst (notify b st)))
  = outgoing (pendingChanges b) ++ forwardedBlocks (snd (notify b st)).
Proof.
  unfold notify. destruct (subscription b) as [s|].
  - pose proof (subscriber_outgoing st (pendingChanges b) s) as H.
    destruct (subscriber _ _ _) as [[pc' s'] tr]. exact H.
  - simpl. now rewrite app_nil_r.
Qed.

Lemma notify_forwards_block_lists (b : Bridge) (st : Store) :
  forallb isBlockList (forwardedBlocks (snd (notify b st))) = true.
Proof.
  unfold notify. destruct (subscription b) as [s|]; [|reflexivity].
  pose proof (subscriber_forwards_block_lists st (pendingChanges b) s) as H.
  destruct (subscriber _ _ _) as [[pc' s'] tr]. exact H.
Qed.

Lemma notify_trace (b : Bridge) (st : Store) :
  forallb isCallback (snd (notify b st)) = true
  /\ List.length (snd (notify b st)) <= 1.
Proof.
  unfold notify. destruct (subscription b) as [s|]; [|simpl; auto].
  pose proof (subscriber_only_calls_back st (pendingChanges b) s) as H.
  destruct (subscriber _ _ _) as [[pc' s'] tr]. exact H.
Qed.

(** The inbound effect empties the queue or leaves it alone. *)
Lemma resetEffect_outgoing (p : Props) (pc : PendingChanges) :
  outgoing (fst (resetEffect p pc)) = []
  \/ outgoing (fst (resetEffect p pc)) = outgoing pc.
Proof.
  unfold resetEffect.
  destruct (includes _ _); [destruct (strict_eq _ _)|]; simpl; auto.
Qed.

Lemma rerender_outgoing (b : Bridge) (p : Props) (st : Store) :
  outgoing (pendingChanges (fst (rerender b p st))) = []
  \/ outgoing (pendingChanges (fst (rerender b p st)))
     = outgoing (pendingChanges b).
Proof.
  unfold rerender. destruct (resetDepsChanged _ _); [|simpl; auto].
  pose proof (resetEffect_outgoing (withDefaults p) (pendingChanges b)) as H.
  destruct (resetEffect _ _). exact H.
Qed.

Lemma rerender_callbacks (b : Bridge) (p : Props) (st : Store) :
  callbacks (snd (rerender b p st)) = [].
Proof.
  unfold rerender. destruct (resetDepsChanged _ _); [|reflexivity].
  pose proof (resetEffect_callbacks (withDefaults p) (pendingChanges b)) as H.
  destruct (resetEffect _ _). exact H.
Qed.

Lemma resetEffect_length (p : Props) (pc : PendingChanges) :
  List.length (snd (resetEffect p pc)) <= 4.
Proof.
  unfold resetEffect, setControlledBlocks, resetSelectionIfControlled.
  destruct (includes _ _); [destruct (strict_eq _ _); simpl; lia|].
  simpl.
  destruct (truthy (controlledBlocks p)), (truthy (clientId p)),
    (truthy _ && truthy _); simpl; lia.
Qed.

Lemma rerender_length (b : Bridge) (p : Props) (st : Store) :
  List.length (snd (rerender b p st)) <= 4.
Proof.
  unfold rerender. destruct (resetDepsChanged _ _); [|simpl; lia].
  pose proof (resetEffect_length (withDefaults p) (pendingChanges b)) as H.
  destruct (resetEffect _ _). exact H.
Qed.

Lemma step_keeps_block_lists (b : Bridge) (i : input) :
  forallb isBlockList (outgoing (pendingChanges b)) = true ->
  forallb isBlockList (outgoing (pendingChanges (fst (step b i)))) = true.
Proof.
  intro Hb. destruct i as [st | q st]; simpl.
  - rewrite notify_outgoing, forallb_app, Hb.
    apply notify_forwards_block_lists.
  - destruct (rerender_outgoing b q st) as [-> | ->]; [reflexivity | exact Hb].
Qed.

Lemma run_keeps_block_lists (inputs : list input) :
  forall b : Bridge,
  forallb isBlockList (outgoing (pendingChanges b)) = true ->
  forallb isBlockList (outgoing (pendingChanges (fst (run b inputs)))) = true.
Proof.
  induction inputs as [|i rest IH]; intros b Hb; simpl; [exact Hb|].
  pose proof (step_keeps_block_lists b i Hb) as H1.
  destruct (step b i) as [b1 tr1]. simpl in H1.
  specialize (IH b1 H1). destruct (run b1 rest) as [b2 tr2]. exact IH.
Qed.

Lemma block_lists_exclude (l : list value) (v : value) :
  forallb isBlockList l = true -> isBlockList v = false ->
  includes l v = false.
Proof.
  intros Hl Hv. destruct (includes l v) eqn:Hinc; [|reflexivity].
  apply includes_In in Hinc.
  rewrite forallb_forall in Hl. rewrite (Hl _ Hinc) in Hv. discriminate.
Qed.

(** X8.  In every state a mounted hook can reach, whatever was rendered and
    whatever the store notified, the queue of outbound pushes holds block
    lists only; so a missing controlled value ([undefined] or [null]) is
    never taken for the echo of a push. *)
Theorem outgoing_holds_block_lists_only :
  forall (p : Props) (st0 : Store) (inputs : list input),
  let pc := pendingChanges (fst (run (fst (mount p st0)) inputs)) in
  forallb isBlockList (outgoing pc) = true
  /\ includes (outgoing pc) Undefined = false
  /\ includes (outgoing pc) Null = false.
Proof.
  intros p st0 inputs pc.
  assert (H : forallb isBlockList (outgoing pc) = true).
  { apply run_keeps_block_lists. unfold mount.
    destruct (resetEffect_outgoing (withDefaults p) initialPendingChanges) as [H | H];
      destruct (resetEffect _ _); simpl in *; now rewrite H. }
  repeat split; [exact H | |]; now apply block_lists_exclude.
Qed.

(** X9.  Over any sequence of renders and notifications, the hook calls back
    at most once per notification and dispatches at most four actions per
    render: callbacks come from notifications only, store actions from
    renders only. *)
Theorem callbacks_per_notification_dispatches_per_render :
  forall (b : Bridge) (inputs : list input),
  let tr := snd (run b inputs) in
  List.length (callbacks tr) <= List.length (filter isNotify inputs)
  /\ List.length (filter (fun e => negb (isCallback e)) tr)
     <= 4 * List.length (filter (fun i => negb (isNotify i)) inputs).
Proof.
  intros b inputs. revert b.
  induction inputs as [|i rest IH]; intro b; simpl; [split; simpl; lia|].
  assert (Hstep : List.length (callbacks (snd (step b i)))
                  <= (if isNotify i then 1 else 0)
                  /\ List.length (filter (fun e => negb (isCallback e))
                                         (snd (step b i)))
                     <= (if isNotify i then 0 else 4)).
  { destruct i as [st | q st]; simpl.
    - destruct (notify_trace b st) as [Hcb Hlen]. split.
      + etransitivity; [apply filter_length_le | exact Hlen].
      + induction (snd (notify b st)) as [|e t IHt]; simpl in *; [lia|].
        apply andb_true_iff in Hcb as [He Ht]. rewrite He. simpl.
        apply IHt; [exact Ht | lia].
    - rewrite rerender_callbacks. split; [simpl; lia|].
      etransitivity; [apply filter_length_le | apply rerender_length]. }
  destruct (step b i) as [b1 tr1]. specialize (IH b1).
  destruct (run b1 rest) as [b2 tr2]. simpl in *.
  unfold callbacks in *. rewrite !filter_app, !length_app.
  destruct Hstep as [H1 H2], IH as [H3 H4].
  destruct (isNotify i); simpl; lia.
Qed.

End Lifecycle.

(** ** Renders *)

Section Renders.

(** X10.  Neither effect lists [isDisabled] or the controlled selection
    among its dependencies: a render that keeps the two callbacks, the
    client id and the controlled value does nothing at all, whatever it
    changes otherwise -- no dispatch, no callback, the same subscription and
    the same [pendingChanges]. *)
Theorem render_with_same_dependencies_does_nothing :
  forall (b : Bridge) (q : Props) (st : Store),
  onChange q = onChange (rendered b) ->
  onInput q = onInput (rendered b) ->
  default_null (clientId q) = clientId (rendered b) ->
  controlledBlocks q = controlledBlocks (rendered b) ->
  rerender b q st
  = ({| rendered := withDefaults q;
        pendingChanges := pendingChanges b;
        subscription := subscription b |}, []).
Proof.
  intros b q st Hc Hi Hid Hv.
  unfold rerender, subscribeDepsChanged, resetDepsChanged. simpl.
  rewrite Hc, Hi, Hid, Hv, !Nat.eqb_refl, !strict_eq_refl. reflexivity.
Qed.

(** A bridge that has no subscription and an empty queue keeps both while
    every render passes [isDisabled]. *)
Lemma step_disabled_invariant (b : Bridge) (i : input) :
  subscription b = None ->
  outgoing (pendingChanges b) = [] ->
  inputKeepsDisabled i = true ->
  subscription (fst (step b i)) = None
  /\ outgoing (pendingChanges (fst (step b i))) = [].
Proof.
  intros Hnone Hout Hdis.
  split; [apply (step_without_subscription b i Hnone Hdis)|].
  destruct i as [st | q st]; simpl.
  - unfold notify. now rewrite Hnone.
  - destruct (rerender_outgoing b q st) as [-> | ->]; auto.
Qed.

Lemma run_disabled_invariant (inputs : list input) :
  forall b : Bridge,
  subscription b = None ->
  outgoing (pendingChanges b) = [] ->
  forallb inputKeepsDisabled inputs = true ->
  subscription (fst (run b inputs)) = None
  /\ outgoing (pendingChanges (fst (run b inputs))) = [].
Proof.
  induction inputs as [|i rest IH]; intros b Hnone Hout Hall; simpl in *.
  - auto.
  - apply andb_true_iff in Hall as [Hi Hrest].
    destruct (step_disabled_invariant b i Hnone Hout Hi) as [H1 H2].
    destruct (step b i) as [b1 tr1]. simpl in *.
    specialize (IH b1 H1 H2 Hrest).
    destruct (run b1 rest) as [b2 tr2]. exact IH.
Qed.

(** X11.  A bridge that has been disabled since it was mounted never queues
    an outbound push, so it takes every change of its value for a genuine
    one: a render whose value is present and differs by reference from the
    value rendered before writes it to the store and records it in
    [incoming]. *)
Theorem disabled_bridge_follows_its_value :
  forall (p : Props) (st0 : Store) (inputs : list input)
         (q : Props) (st : Store),
  isDisabled p = true ->
  forallb inputKeepsDisabled inputs = true ->
  truthy (controlledBlocks q) = true ->
  strict_eq (controlledBlocks
               (rendered (fst (run (fst (mount p st0)) inputs))))
            (controlledBlocks q) = false ->
  let b := fst (run (fst (mount p st0)) inputs) in
  outgoing (pendingChanges b) = []
  /\ blockWrites (snd (rerender b q st)) = setControlledBlocks (withDefaults q)
  /\ setControlledBlocks (withDefaults q) <> []
  /\ incoming (pendingChanges (fst (rerender b q st))) = controlledBlocks q.
Proof.
  intros p st0 inputs q st Hdis Hall Hv Hnew b.
  fold b in Hnew.
  assert (Hinv : subscription b = None /\ outgoing (pendingChanges b) = []).
  { apply run_disabled_invariant; [| |exact Hall].
    - unfold mount. destruct (resetEffect _ _). simpl.
      unfold subscribeEffect. simpl. now rewrite Hdis.
    - unfold mount.
      destruct (resetEffect_outgoing (withDefaults p) initialPendingChanges)
        as [H | H]; destruct (resetEffect _ _); simpl in *; now rewrite H. }
  destruct Hinv as [_ Hout]. split; [exact Hout|].
  assert (Hinc : includes (outgoing (pendingChanges b))
                          (controlledBlocks (withDefaults q)) = false)
    by now rewrite Hout.
  unfold rerender, resetDepsChanged. fold b.
  replace (controlledBlocks (withDefaults q)) with (controlledBlocks q)
    in * by reflexivity.
  rewrite Hnew. simpl orb.
  pose proof (resetEffect_new_writes (withDefaults q) _ Hinc) as Hw.
  assert (Hin : incoming (fst (resetEffect (withDefaults q) (pendingChanges b)))
                = controlledBlocks q).
  { unfold resetEffect.
    replace (controlledBlocks (withDefaults q)) with (controlledBlocks q)
      by reflexivity.
    now rewrite Hinc. }
  assert (Hne : setControlledBlocks (withDefaults q) <> []).
  { unfold setControlledBlocks.
    replace (controlledBlocks (withDefaults q)) with (controlledBlocks q)
      by reflexivity.
    rewrite Hv. simpl negb. cbv iota.
    destruct (truthy (clientId (withDefaults q))); discriminate. }
  destruct (resetEffect (withDefaults q) (pendingChanges b)) as [pc' tr].
  simpl fst in *. simpl snd in *. auto.
Qed.

End Renders.

(** ** From mounting to the first edit *)

Section Mounting.

(** X12.  The first notification after mounting calls back unless the hook
    is disabled, was mounted with a present value (whose reset it is taken
    to be), or the store marks the last change as ignored -- and in no other
    case. *)
Theorem first_notification_after_mount_silent_iff :
  forall (p : Props) (st0 st : Store),
  snd (notify (fst (mount p st0)) st) = []
  <-> isDisabled p = true
      \/ truthy (controlledBlocks p) = true
      \/ isLastBlockChangeIgnored st = true.
Proof.
  intros p st0 st. unfold mount, resetEffect, notify, subscribeEffect. simpl.
  destruct (isDisabled p); simpl; [tauto|].
  unfold subscriber, areBlocksDifferent. simpl.
  destruct (truthy (controlledBlocks p)); simpl; [tauto|].
  destruct (isLastBlockChangeIgnored st); simpl; [tauto|].
  split; [discriminate|]. intros [H | [H | H]]; discriminate.
Qed.

(** X13.  An enabled hook mounted with a present value lets the first
    notification pass as the echo of its own reset; the next notification
    that brings another block list, not marked ignored, is forwarded to
    [onChange] (persistent) or [onInput], and that is all the two
    notifications do. *)
Theorem first_edit_after_mount_is_forwarded :
  forall (p : Props) (st0 st1 st2 : Store),
  isDisabled p = false ->
  truthy (controlledBlocks p) = true ->
  getBlocks st2 (default_null (clientId p))
    <> getBlocks st1 (default_null (clientId p)) ->
  isLastBlockChangeIgnored st2 = false ->
  snd (run (fst (mount p st0)) [ Notify st1; Notify st2 ])
  = [ if isLastBlockChangePersistent st2
      then OnChange (onChange p)
                    (Obj (getBlocks st2 (default_null (clientId p))))
                    (getSelectionStart st2) (getSelectionEnd st2)
      else OnInput (onInput p)
                   (Obj (getBlocks st2 (default_null (clientId p))))
                   (getSelectionStart st2) (getSelectionEnd st2) ].
Proof.
  intros p st0 st1 st2 Hen Hv Hdiff Hign.
  unfold mount, resetEffect, subscribeEffect. simpl includes. cbv iota.
  simpl. rewrite Hen. simpl. unfold notify at 1. simpl.
  unfold subscriber at 1, areBlocksDifferent at 1. simpl. rewrite Hv. simpl.
  unfold notify. simpl.
  unfold subscriber, areBlocksDifferent, newBlocks. simpl.
  apply Nat.eqb_neq in Hdiff. rewrite Hdiff, Hign. reflexivity.
Qed.

(** Over notifications alone the queue grows by what was forwarded. *)
Lemma run_notifications_outgoing (inputs : list input) :
  forall b : Bridge,
  forallb isNotify inputs = true ->
  outgoing (pendingChanges (fst (run b inputs)))
  = outgoing (pendingChanges b) ++ forwardedBlocks (snd (run b inputs)).
Proof.
  induction inputs as [|i rest IH]; intros b Hall; simpl in *.
  - now rewrite app_nil_r.
  - apply andb_true_iff in Hall as [Hi Hrest].
    destruct i as [st | q st]; [|discriminate]. simpl.
    pose proof (notify_outgoing b st) as H1.
    destruct (notify b st) as [b1 tr1]. simpl in H1.
    specialize (IH b1 Hrest).
    destruct (run b1 rest) as [b2 tr2]. simpl in *.
    now rewrite IH, H1, forwardedBlocks_app, app_assoc.
Qed.

(** X14.  After any number of notifications in a row, every block list that
    was handed to [onChange] or [onInput] meanwhile is in the queue: a
    render that brings one of them back as the value dispatches nothing and
    does not touch [incoming]. *)
Theorem any_forwarded_value_rendered_back_resets_nothing :
  forall (b : Bridge) (inputs : list input) (p : Props),
  forallb isNotify inputs = true ->
  In (controlledBlocks p) (forwardedBlocks (snd (run b inputs))) ->
  let pc := pendingChanges (fst (run b inputs)) in
  includes (outgoing pc) (controlledBlocks p) = true
  /\ snd (resetEffect p pc) = []
  /\ incoming (fst (resetEffect p pc)) = incoming pc.
Proof.
  intros b inputs p Hall Hin pc.
  assert (Hinc : includes (outgoing pc) (controlledBlocks p) = true).
  { apply includes_In. unfold pc.
    rewrite (run_notifications_outgoing _ _ Hall).
    apply in_or_app. now right. }
  split; [exact Hinc|].
  unfold resetEffect. rewrite Hinc.
  destruct (strict_eq _ _); simpl; auto.
Qed.

End Mounting.

(** ** The further properties on sample inputs *)

Section MoreSamples.

Lemma suppression_keeps_previous_difference_witness :
  let st := storeAt 3 false false in
  let pc := pendingOf (Obj 3) [ Obj 1 ] in
  let s := subscriptionAt (Obj 1) false true in
  let st2 := storeAt 3 true false in
  let pc2 := pendingOf Null [ Obj 1 ] in
  areBlocksDifferent st s = true
  /\ (truthy (incoming pc) = true \/ isLastBlockChangeIgnored st = true)
  /\ isLastBlockChangePersistent st = false
  /\ getBlocks st2 (sub_clientId s) = getBlocks st (sub_clientId s)
  /\ isLastBlockChangePersistent st2 = true
  /\ snd (subscriber st pc s) = []
  /\ snd (subscriber st2 pc2 (snd (fst (subscriber st pc s))))
     = [ OnChange 1 (Obj 3) (Obj 100) (Obj 101) ].
Proof.
  intros st pc s st2 pc2.
  split; [reflexivity|]. split; [left; reflexivity|].
  do 3 (split; [reflexivity|]).
  exact (suppression_keeps_previous_difference st pc s st2 pc2
           eq_refl (or_introl eq_refl) eq_refl eq_refl eq_refl).
Defined.

Lemma forwarded_value_rendered_back_resets_nothing_witness :
  let st := storeAt 2 true false in
  let pc := pendingOf Null [ Obj 1 ] in
  let s := subscriptionAt (Obj 1) true false in
  let p := propsWithSelection Null (Obj 2) false in
  In (controlledBlocks p) (forwardedBlocks (snd (subscriber st pc s)))
  /\ resetEffect p (fst (fst (subscriber st pc s)))
     = ({| incoming := Null; outgoing := [] |}, []).
Proof.
  intros st pc s p.
  assert (Hin : In (controlledBlocks p)
                   (forwardedBlocks (snd (subscriber st pc s))))
    by (left; reflexivity).
  split; [exact Hin|].
  exact (forwarded_value_rendered_back_resets_nothing st pc s p Hin).
Defined.

Lemma render_with_same_dependencies_does_nothing_witness :
  let b := {| rendered := propsOf Null (Obj 1) false;
              pendingChanges := pendingOf Null [ Obj 1 ];
              subscription := Some (subscriptionAt (Obj 1) true false) |} in
  let q := propsWithSelection Undefined (Obj 1) true in
  let st := storeAt 1 true false in
  onChange q = onChange (rendered b)
  /\ onInput q = onInput (rendered b)
  /\ default_null (clientId q) = clientId (rendered b)
  /\ controlledBlocks q = controlledBlocks (rendered b)
  /\ rerender b q st
     = ({| rendered := withDefaults q;
           pendingChanges := pendingChanges b;
           subscription := subscription b |}, []).
Proof.
  intros b q st.
  do 4 (split; [reflexivity|]).
  exact (render_with_same_dependencies_does_nothing b q st
           eq_refl eq_refl eq_refl eq_refl).
Defined.

Lemma disabled_bridge_follows_its_value_witness :
  let p := propsOf Null (Obj 0) true in
  let st0 := storeAt 0 false false in
  let inputs := [ Notify (storeAt 1 true false);
                  Render (propsOf Null (Obj 2) true) (storeAt 1 true false) ] in
  let q := propsOf (Str "inner") (Obj 3) true in
  let st := storeAt 2 false false in
  let b := fst (run (fst (mount p st0)) inputs) in
  isDisabled p = true
  /\ forallb inputKeepsDisabled inputs = true
  /\ truthy (controlledBlocks q) = true
  /\ strict_eq (controlledBlocks (rendered b)) (controlledBlocks q) = false
  /\ outgoing (pendingChanges b) = []
  /\ blockWrites (snd (rerender b q st)) = setControlledBlocks (withDefaults q)
  /\ setControlledBlocks (withDefaults q) <> []
  /\ incoming (pendingChanges (fst (rerender b q st))) = Obj 3.
Proof.
  intros p st0 inputs q st b.
  do 4 (split; [reflexivity|]).
  exact (disabled_bridge_follows_its_value p st0 inputs q st
           eq_refl eq_refl eq_refl eq_refl).
Defined.

Lemma first_edit_after_mount_is_forwarded_witness :
  let p := propsOf Null (Obj 0) false in
  let st0 := storeAt 9 false false in
  let st1 := storeAt 0 false false in
  let st2 := storeAt 1 true false in
  isDisabled p = false
  /\ truthy (controlledBlocks p) = true
  /\ getBlocks st2 (default_null (clientId p))
     <> getBlocks st1 (default_null (clientId p))
  /\ isLastBlockChangeIgnored st2 = false
  /\ snd (run (fst (mount p st0)) [ Notify st1; Notify st2 ])
     = [ OnChange 1 (Obj 1) (Obj 100) (Obj 101) ].
Proof.
  intros p st0 st1 st2.
  assert (Hdiff : getBlocks st2 (default_null (clientId p))
                  <> getBlocks st1 (default_null (clientId p)))
    by (simpl; discriminate).
  split; [reflexivity|]. split; [reflexivity|]. split; [exact Hdiff|].
  split; [reflexivity|].
  exact (first_edit_after_mount_is_forwarded p st0 st1 st2
           eq_refl eq_refl Hdiff eq_refl).
Defined.

Lemma any_forwarded_value_rendered_back_resets_nothing_witness :
  let b := {| rendered := propsOf Null Undefined false;
              pendingChanges := pendingOf Null [];
              subscription := Some (subscriptionAt (Obj 0) true false) |} in
  let inputs := [ Notify (storeAt 1 false false);
                  Notify (storeAt 2 true false) ] in
  let p := propsOf Null (Obj 1) false in
  forallb isNotify inputs = true
  /\ In (controlledBlocks p) (forwardedBlocks (snd (run b inputs)))
  /\ includes (outgoing (pendingChanges (fst (run b inputs))))
              (controlledBlocks p) = true
  /\ snd (resetEffect p (pendingChanges (fst (run b inputs)))) = []
  /\ incoming (fst (resetEffect p (pendingChanges (fst (run b inputs)))))
     = incoming (pendingChanges (fst (run b inputs))).
Proof.
  intros b inputs p.
  assert (Hin : In (controlledBlocks p) (forwardedBlocks (snd (run b inputs))))
    by (left; reflexivity).
  split; [reflexivity|]. split; [exact Hin|].
  exact (any_forwarded_value_rendered_back_resets_nothing b inputs p
           eq_refl Hin).
Defined.

End MoreSamples.
